(** * A shallow embedding of the books.com.tw metadata source (src/__init__.py)

    Python [str] values are modelled as [string], i.e. their UTF-8 byte
    sequence; splitting on a non-empty separator and substring tests agree
    on UTF-8 bytes and on code points, so the full-width slash is the
    three-byte string "／". *)

From stdpp Require Import base gmap strings list.
From Stdlib Require Import ZArith Ascii.

Open Scope string_scope.

(** ** Python string primitives *)

Module PyStr.

(** [startswith p s]: [s.startswith(p)]. *)
Fixpoint startswith (p s : string) : bool :=
  match p, s with
  | EmptyString, _ => true
  | String a p', String b s' => if Ascii.eqb a b then startswith p' s' else false
  | String _ _, EmptyString => false
  end.

(** [s[n:]] *)
Fixpoint drop (n : nat) (s : string) : string :=
  match n, s with
  | O, _ => s
  | S n', String _ s' => drop n' s'
  | S _, EmptyString => EmptyString
  end.

(** [p in s] *)
Fixpoint contains (p s : string) : bool :=
  if startswith p s then true
  else match s with
       | String _ s' => contains p s'
       | EmptyString => false
       end.

(** [s.split(sep)] for a non-empty [sep]: the text between non-overlapping
    occurrences of [sep], scanned from the left; never the empty list. *)
Fixpoint split_go (sep : string) (fuel : nat) (s cur : string) : list string :=
  match fuel with
  | O => [cur ++ s]
  | S fuel' =>
      if startswith sep s then cur :: split_go sep fuel' (drop (String.length sep) s) ""
      else match s with
           | EmptyString => [cur]
           | String c s' => split_go sep fuel' s' (cur ++ String c EmptyString)
           end
  end.

Definition split (sep s : string) : list string :=
  split_go sep (S (String.length s)) s "".

(** ["\n".join(l)] *)
Fixpoint join (sep : string) (l : list string) : string :=
  match l with
  | [] => ""
  | [x] => x
  | x :: l' => x ++ sep ++ join sep l'
  end.

End PyStr.

(** ** The two regular expressions of the source *)

Module Re.

Definition is_special (c : Ascii.ascii) : bool :=
  Ascii.eqb c "?"%char || Ascii.eqb c "="%char || Ascii.eqb c "&"%char.

(** The longest prefix of [u] made of characters outside [?=&]
    ([[^\?\=\&]*], greedy). *)
Fixpoint run (u : string) : string :=
  match u with
  | String c u' => if is_special c then EmptyString else String c (run u')
  | EmptyString => EmptyString
  end.

(** Backtracking of [[^\?\=\&]*] followed by the literal id: the longest
    run [a] of non-special characters after which [u] continues with [id];
    returns [a] and what follows the id. *)
Fixpoint split_at_id (id u a : string) : option (string * string) :=
  let here := if PyStr.startswith id u
              then Some (a, PyStr.drop (String.length id) u) else None in
  match u with
  | String c u' =>
      if is_special c then here
      else match split_at_id id u' (a ++ String c EmptyString) with
           | Some r => Some r
           | None => here
           end
  | EmptyString => here
  end.

(** A match of [https[^\?\=\&]*ID[^\?\=\&]*] starting at the head of [t]. *)
Definition cover_match_at (id t : string) : option string :=
  if PyStr.startswith "https" t then
    match split_at_id id (PyStr.drop 5 t) "" with
    | Some (a, rest) => Some ("https" ++ a ++ id ++ run rest)
    | None => None
    end
  else None.

(** [re.search(r'https[^\?\=\&]*'+bokelai_id+r'[^\?\=\&]*', image)]:
    the leftmost match, [None] when there is none. *)
Fixpoint cover_search (id s : string) : option string :=
  match cover_match_at id s with
  | Some m => Some m
  | None => match s with
            | String _ s' => cover_search id s'
            | EmptyString => None
            end
  end.

Fixpoint run_noslash (u : string) : string :=
  match u with
  | String c u' => if Ascii.eqb c "/"%char then EmptyString else String c (run_noslash u')
  | EmptyString => EmptyString
  end.

(** [re.search(r"(?<=item\/)[^\/]*", url)]: the run of non-slash
    characters right after the first occurrence of [item/]. *)
Fixpoint item_search (s : string) : option string :=
  if PyStr.startswith "item/" s then Some (run_noslash (PyStr.drop 5 s))
  else match s with
       | String _ s' => item_search s'
       | EmptyString => None
       end.

(** The characters that are not literal in a Python pattern outside a
    character class. *)
Definition is_meta (c : Ascii.ascii) : bool :=
  existsb (Ascii.eqb c) (String.list_ascii_of_string ".^$*+?{}[]\|()").

(** An id made of literal characters only: pasted into the pattern it
    matches its own text. *)
Fixpoint meta_free (s : string) : bool :=
  match s with
  | String c s' => negb (is_meta c) && meta_free s'
  | EmptyString => true
  end.

End Re.

(** ** Data model *)

(** The fields of the JSON-LD blob that [retrieve_bokelai_detail] reads, as
    the Python dict returned by [json.loads] exposes them: [None] is a
    missing key (a [KeyError] on access); [ld_author] and [ld_publisher] are
    the lists of objects whose first element's [name] is read;
    [ld_isbn] is [info_json['workExample']['workExample']['isbn']]. *)
Record ld_json := mk_ld {
  ld_name : option string;
  ld_author : option (list (option string));
  ld_publisher : option (list (option string));
  ld_isbn : option string;
  ld_datePublished : option string;
  ld_image : option string
}.

(** A script element of type application/ld+json: its text, and the
    result of [json.loads] on it ([None]: the text is not valid JSON). *)
Record ld_script := mk_script { sc_text : string; sc_json : option ld_json }.

(** What a fetched page offers to the code: whether [etree.HTML(raw)]
    gives a document ([false]: it returns [None], as for an empty body),
    the XPath views the code queries on it, and the raw body
    ([_raw.read()]). *)
Record response := mk_response {
  r_root : bool;
  r_ld_scripts : list ld_script;                (* //script[@type='application/ld+json'] *)
  r_content_texts : list string;                (* (//div[@class='content'])[1]//text() *)
  r_class_anchors : list (option string);       (* //li[contains(text(),'本書分類：')]/a, .text *)
  r_search_hrefs : list string;                 (* //form[@id='searchlist']/ul/li/a[@rel='mid_image']/@href *)
  r_body : list Byte.byte
}.

Record date := mk_date { d_year : Z; d_month : Z; d_day : Z }.

(** calibre's [Metadata] object as the adapter fills it. *)
Record Metadata := mk_meta {
  mi_title : string;
  mi_authors : list string;
  mi_identifiers : gmap string string;
  mi_publisher : string;
  mi_comments : string;
  mi_isbn : string;
  mi_tags : list string;
  mi_pubdate : option date;
  mi_has_bokelai_cover : option string
}.

(** What is put on a result queue: a record, or [(self, cdata)]. *)
Inductive item :=
| IMeta (mi : Metadata)
| ICover (cdata : list Byte.byte).

Inductive log_entry :=
| LInfo (args : list string)
| LError (args : list string)
| LException (args : list string).

(** Python exceptions the code can raise. *)
Inductive exn :=
| KeyError (k : string)
| IndexError
| AttributeError
| TypeError
| ValueError
| ReError (msg : string). (* re.error: the pattern does not compile *)

(** ** A state and exception monad *)

Record state := mk_state {
  st_log : list log_entry;
  st_queue : list item;          (* the result queue passed to the call *)
  st_cache : gmap string string; (* the host's identifier -> cover url cache *)
  st_abort : bool                (* abort.is_set() *)
}.

Inductive res (A : Type) := Ok (a : A) | Raised (e : exn).
Arguments Ok {A} a.
Arguments Raised {A} e.

Definition M (A : Type) : Type := state -> res A * state.

Definition ret {A} (a : A) : M A := fun s => (Ok a, s).
Definition bind {A B} (m : M A) (f : A -> M B) : M B :=
  fun s => match m s with
           | (Ok a, s') => f a s'
           | (Raised e, s') => (Raised e, s')
           end.

Notation "x <- m ;; k" := (bind m (fun x => k))
  (at level 65, m at next level, right associativity).
Notation "m ;;; k" := (bind m (fun _ => k))
  (at level 65, right associativity).

Definition raise {A} (e : exn) : M A := fun s => (Raised e, s).

Definition with_state (f : state -> state) : M unit := fun s => (Ok tt, f s).
Definition get_state : M state := fun s => (Ok s, s).

Definition push_log (e : log_entry) : M unit :=
  with_state (fun s => mk_state (st_log s ++ [e]) (st_queue s) (st_cache s) (st_abort s)).
Definition log_info (args : list string) : M unit := push_log (LInfo args).
Definition log_error (args : list string) : M unit := push_log (LError args).
Definition log_exception (args : list string) : M unit := push_log (LException args).

(** [result_queue.put(x)] *)
Definition put (x : item) : M unit :=
  with_state (fun s => mk_state (st_log s) (st_queue s ++ [x]) (st_cache s) (st_abort s)).

(** [self.cache_identifier_to_cover_url(id, url)] *)
Definition cache_identifier_to_cover_url (id url : string) : M unit :=
  with_state (fun s => mk_state (st_log s) (st_queue s) (<[id := url]> (st_cache s)) (st_abort s)).

(** [self.cached_identifier_to_cover_url(id)] *)
Definition cached_identifier_to_cover_url (id : string) : M (option string) :=
  fun s => (Ok (st_cache s !! id), s).

Definition is_set : M bool := fun s => (Ok (st_abort s), s).

(** [d[k]] *)
Definition getkey {A} (k : string) (o : option A) : M A :=
  match o with Some a => ret a | None => raise (KeyError k) end.

(** [l[0]] *)
Definition index0 {A} (l : list A) : M A :=
  match l with a :: _ => ret a | [] => raise IndexError end.

Fixpoint for_each {A} (f : A -> M unit) (l : list A) : M unit :=
  match l with
  | [] => ret tt
  | x :: l' => f x ;;; for_each f l'
  end.

Definition BOKELAI_DETAIL_URL (id : string) : string :=
  "https://www.books.com.tw/products/" ++ id.
Definition BOKELAI_QUERY_URL (q : string) : string :=
  "https://search.books.com.tw/search/query/key/" ++ q.

Definition newline : string := String (ascii_of_nat 10) EmptyString.

(** Python truthiness of an optional string, [None] or [""] being false. *)
Definition truthy_str (o : option string) : bool :=
  match o with Some s => negb (String.eqb s "") | None => false end.

(** One pass of the tag loop body on the text of an anchor:
<<
            if "／" in ele.text:
                tags.extend(ele.text.split("／"))
            if "/" in ele.text:
                tags.extend(ele.text.split("/"))
            else:
                tags.append(ele.text)
>> *)
Definition extend_tags (tags : list string) (text : string) : list string :=
  let tags := if PyStr.contains "／" text then app tags (PyStr.split "／" text) else tags in
  if PyStr.contains "/" text then app tags (PyStr.split "/" text) else app tags [text].

(** The loop over the classification anchors; an anchor without text
    ([ele.text] is [None]) makes [in] raise a [TypeError]. *)
Fixpoint collect_tags (anchors : list (option string)) (tags : list string)
  : M (list string) :=
  match anchors with
  | [] => ret tags
  | ele :: rest =>
      log_info [match ele with Some t => t | None => "None" end] ;;;
      text <- (match ele with Some t => ret t | None => raise TypeError end) ;;
      collect_tags rest (extend_tags tags text)
  end.

(** [root.xpath(...)] on [root = etree.HTML(raw)]: an [AttributeError]
    when [etree.HTML] returned [None]. *)
Definition html_root (raw : response) : M unit :=
  if r_root raw then ret tt else raise AttributeError.

(** The external collaborators: the HTTP browser ([inl msg]: the fetch
    raised, with [msg] the exception's text), calibre's [parse_date] with
    the [default] the code passes ([None]: it raised), Python's [re] on the
    cover pattern built from an id that has a metacharacter (see
    [cover_regex_search]; [inl msg]: [re.error]), and the sort of identify
    results by [identify_results_keygen]. *)
Section Bokelai.

Variable open_novisit : string -> Z -> string + response.
Variable parse_date : string -> option date.
Variable re_search_meta : string -> string -> string + option string.
Variable identify_results_sort :
  option string -> option (list string) -> gmap string string ->
  list Metadata -> list Metadata.

Definition with_pubdate (mi : Metadata) (d : option date) : Metadata :=
  mk_meta (mi_title mi) (mi_authors mi) (mi_identifiers mi) (mi_publisher mi)
    (mi_comments mi) (mi_isbn mi) (mi_tags mi) d (mi_has_bokelai_cover mi).

Definition with_cover (mi : Metadata) (c : option string) : Metadata :=
  mk_meta (mi_title mi) (mi_authors mi) (mi_identifiers mi) (mi_publisher mi)
    (mi_comments mi) (mi_isbn mi) (mi_tags mi) (mi_pubdate mi) c.

(** [re.search(r'https[^\?\=\&]*'+bokelai_id+r'[^\?\=\&]*', image)]: the
    id is pasted into the pattern unescaped. An id without metacharacters
    stands for its own text, and the search is [Re.cover_search]; any
    other id is regex syntax the search hands to [re]. *)
Definition cover_regex_search (bokelai_id image : string) : string + option string :=
  if Re.meta_free bokelai_id then inr (Re.cover_search bokelai_id image)
  else re_search_meta bokelai_id image.

(** The [if pubdate:] block. *)
Definition set_pubdate (mi : Metadata) (pubdate : string) : M Metadata :=
  if String.eqb pubdate "" then ret mi
  else match parse_date pubdate with
       | Some d => ret (with_pubdate mi (Some d))
       | None => log_error ["Failed to parse pubdate '" ++ pubdate ++ "'"] ;;; ret mi
       end.

Definition retrieve_bokelai_detail (bokelai_id : string) (timeout : Z) : M unit :=
  let detail_url := BOKELAI_DETAIL_URL bokelai_id in
  log_info [detail_url] ;;;
  match open_novisit detail_url timeout with
  | inl _ => log_exception ["Failed to load detail page: " ++ detail_url]
  | inr raw =>
      html_root raw ;;;
      script <- index0 (r_ld_scripts raw) ;;
      log_info [sc_text script] ;;;
      info_json <- (match sc_json script with Some j => ret j | None => raise ValueError end) ;;
      title <- getkey "name" (ld_name info_json) ;;
      author_l <- getkey "author" (ld_author info_json) ;;
      author0 <- index0 author_l ;;
      author_name <- getkey "name" author0 ;;
      let authors := PyStr.split "," author_name in
      publisher_l <- getkey "publisher" (ld_publisher info_json) ;;
      publisher0 <- index0 publisher_l ;;
      publisher <- getkey "name" publisher0 ;;
      isbn <- getkey "isbn" (ld_isbn info_json) ;;
      pubdate <- getkey "datePublished" (ld_datePublished info_json) ;;
      let comments := PyStr.join newline (r_content_texts raw) in
      tags <- collect_tags (r_class_anchors raw) [] ;;
      image <- getkey "image" (ld_image info_json) ;;
      (* re.search(...).group(0): [None.group] raises AttributeError *)
      cover_url <- (match cover_regex_search bokelai_id image with
                    | inr (Some m) => ret m
                    | inr None => raise AttributeError
                    | inl msg => raise (ReError msg)
                    end) ;;
      let authors := match authors with [] => ["Unknown"] | _ => authors end in
      log_info (app [title] (app authors (app [publisher; isbn; pubdate; comments] (app tags [cover_url])))) ;;;
      let mi := mk_meta title authors
                  (<["isbn" := isbn]> (<["bokelai" := bokelai_id]> ∅))
                  publisher comments isbn tags None None in
      mi <- set_pubdate mi pubdate ;;
      (* [cover_url] is a [str] here, so [not cover_url is None] holds *)
      let mi := with_cover mi (Some cover_url) in
      cid <- getkey "bokelai" (mi_identifiers mi !! "bokelai") ;;
      cache_identifier_to_cover_url cid cover_url ;;;
      put (IMeta mi)
  end.

Fixpoint parse_hrefs (urls : list string) : M (list string) :=
  match urls with
  | [] => ret []
  | url :: rest =>
      bid <- (match Re.item_search url with Some b => ret b | None => raise AttributeError end) ;;
      bids <- parse_hrefs rest ;;
      ret (bid :: bids)
  end.

Definition parse_bokelai_query_page (raw : response) : M (list string) :=
  html_root raw ;;;
  parse_hrefs (r_search_hrefs raw).


Definition get_cached_cover_url (identifiers : gmap string string) : M (option string) :=
  match identifiers !! "bokelai" with
  | Some bokelai_id => cached_identifier_to_cover_url bokelai_id
  | None => ret None
  end.

(** The query string when there is no ISBN. *)
Definition search_str (title : option string) (authors : option (list string)) : string :=
  let s := "" in
  let s := if truthy_str title then s ++ default "" title else s in
  match authors with
  | Some ((_ :: _) as l) => fold_left (fun acc author => acc ++ author) l s
  | _ => s
  end.

(** The search url, from the ISBN when there is one, else from the title
    and authors:
<<
        if isbn:
            search_url = self.BOKELAI_QUERY_URL % isbn
        if not isbn:
            ...
            search_url = self.BOKELAI_QUERY_URL % search_str
>> *)
Definition identify_search_url (isbn : option string) (title : option string)
    (authors : option (list string)) : string :=
  if truthy_str isbn then BOKELAI_QUERY_URL (default "" isbn)
  else BOKELAI_QUERY_URL (search_str title authors).

(** The part of [identify] from the search fetch on. *)
Definition identify_query (search_url : string) (timeout : Z) : M (option string) :=
  match open_novisit search_url timeout with
  | inl e =>
      log_exception ["Failed to make identify query: " ++ search_url] ;;;
      ret (Some e)
  | inr raw =>
      candidate_bokelai_id_list <- parse_bokelai_query_page raw ;;
      match candidate_bokelai_id_list with
      | [] => log_error ["No result found." ++ newline; "query: " ++ search_url] ;;; ret None
      | _ =>
          (* [if abort.is_set: pass] tests the bound method and does nothing *)
          for_each (fun bid => ret tt ;;; retrieve_bokelai_detail bid timeout)
            candidate_bokelai_id_list ;;;
          ret None
      end
  end.

Definition identify (title : option string) (authors : option (list string))
    (identifiers : gmap string string) (timeout : Z) : M (option string) :=
  let bokelai_id := identifiers !! "bokelai" in
  if truthy_str bokelai_id then
    retrieve_bokelai_detail (default "" bokelai_id) timeout ;;; ret None
  else
    identify_query (identify_search_url (identifiers !! "isbn") title authors) timeout.

(** [rq = Queue()]: run an action against a fresh result queue and hand
    back what it put there; the caller's queue is left as it was. *)
Definition run_on_fresh_queue {A} (m : M A) : M (list item) :=
  fun s =>
    let '(r, s') := m (mk_state (st_log s) [] (st_cache s) (st_abort s)) in
    let s'' := mk_state (st_log s') (st_queue s) (st_cache s') (st_abort s') in
    match r with
    | Ok _ => (Ok (st_queue s'), s'')
    | Raised e => (Raised e, s'')
    end.

Definition metas (q : list item) : list Metadata :=
  flat_map (fun x => match x with IMeta mi => [mi] | ICover _ => [] end) q.

(** [for mi in results: cached_url = ...; if cached_url is not None: break] *)
Fixpoint first_cached (results : list Metadata) : M (option string) :=
  match results with
  | [] => ret None
  | mi :: rest =>
      cached_url <- get_cached_cover_url (mi_identifiers mi) ;;
      match cached_url with
      | Some _ => ret cached_url
      | None => first_cached rest
      end
  end.

(** The tail of [download_cover], from [if abort.is_set(): return]. *)
Definition fetch_cover (cached_url : string) (timeout : Z) : M unit :=
  aborted <- is_set ;;
  if aborted then ret tt
  else
    log_info ["Downloading cover from:"; cached_url] ;;;
    match open_novisit cached_url timeout with
    | inl _ => log_exception ["Failed to download cover from:"; cached_url]
    | inr r =>
        match r_body r with
        | [] => ret tt
        | cdata => put (ICover cdata)
        end
    end.

Definition download_cover (title : option string) (authors : option (list string))
    (identifiers : gmap string string) (timeout : Z) : M unit :=
  cached_url <- get_cached_cover_url identifiers ;;
  match cached_url with
  | Some url => fetch_cover url timeout
  | None =>
      log_info ["No cached cover found, running identify"] ;;;
      (* identify is called without timeout, so with its default of 30 *)
      rq <- run_on_fresh_queue (identify title authors identifiers 30) ;;
      aborted <- is_set ;;
      if aborted then ret tt
      else
        let results := identify_results_sort title authors identifiers (metas rq) in
        cached_url <- first_cached results ;;
        match cached_url with
        | None => log_info ["No cover found"]
        | Some url => fetch_cover url timeout
        end
  end.

End Bokelai.

(** ** Observations on runs *)



(** An action that leaves the result queue as it found it. *)
Definition keeps_queue {A} (m : M A) : Prop :=
  forall s, st_queue (snd (m s)) = st_queue s.

(** An action that adds nothing to the result queue, or one non-empty
    cover payload. *)
Definition emits_nonempty_cover {A} (m : M A) : Prop :=
  forall s, exists new, st_queue (snd (m s)) = app (st_queue s) new /\
    (new = [] \/ exists cdata, cdata <> [] /\ new = [ICover cdata]).

(** An action that only appends metadata records to the result queue. *)
Definition adds_only_records {A} (m : M A) : Prop :=
  forall s, exists new, st_queue (snd (m s)) = app (st_queue s) new /\
    Forall (fun x => exists mi, x = IMeta mi) new.

(** An action that does not touch the abort flag. *)
Definition keeps_abort {A} (m : M A) : Prop :=
  forall s, st_abort (snd (m s)) = st_abort s.

(** ** Concrete inputs *)

Module Fixture.

Definition digit (c : Ascii.ascii) : option Z :=
  let n := (Z.of_nat (Ascii.nat_of_ascii c) - 48)%Z in
  if (0 <=? n)%Z && (n <=? 9)%Z then Some n else None.

Fixpoint digits_go (s : string) (acc : Z) : option Z :=
  match s with
  | EmptyString => Some acc
  | String c s' => match digit c with
                   | Some d => digits_go s' (10 * acc + d)%Z
                   | None => None
                   end
  end.

Definition digits (s : string) : option Z :=
  if String.eqb s "" then None else digits_go s 0.

(** A date parser for [YYYY/MM/DD] strings, standing for calibre's. *)
Definition parse_ymd (s : string) : option date :=
  match PyStr.split "/" s with
  | [y; m; d] =>
      match digits y, digits m, digits d with
      | Some y, Some m, Some d => Some (mk_date y m d)
      | _, _, _ => None
      end
  | _ => None
  end.

Definition ld_sample (author : option (list (option string))) (image date : string) : ld_json :=
  mk_ld (Some "T") author (Some [Some "P"]) (Some "9789862376836") (Some date) (Some image).

Definition image_ok : string := "https://im.books.com.tw/img/001/0010.jpg?v=1".

Definition detail_page (author : option (list (option string))) (image date : string)
    (anchors : list (option string)) : response :=
  mk_response true [mk_script "{}" (Some (ld_sample author image date))]
    ["line1"; "line2"] anchors [] [].

Definition good_page : response :=
  detail_page (Some [Some "A,B,C"]) image_ok "2020/05/03" [Some "Romance"].

Definition search_page (hrefs : list string) : response :=
  mk_response true [] [] [] hrefs [].

(** A site: the detail page answered for every product url, the search
    page for every query url, [cover] for every other url. *)
Definition site (detail : response) (hrefs : list string) (cover : list Byte.byte)
    (url : string) (_ : Z) : string + response :=
  if PyStr.startswith "https://www.books.com.tw/products/" url then inr detail
  else if PyStr.startswith "https://search.books.com.tw/" url then inr (search_page hrefs)
  else inr (mk_response true [] [] [] [] cover).

Definition offline (url : string) (_ : Z) : string + response := inl "timed out".

Definition st0 : state := mk_state [] [] ∅ false.

(** [re] on the cover pattern of an id with a metacharacter: the ids of
    these runs are digits, for which it is never consulted. *)
Definition re_none (_ _ : string) : string + option string := inr None.

Definition no_sort (_ : option string) (_ : option (list string))
    (_ : gmap string string) (l : list Metadata) : list Metadata := l.

Definition queue_of {A} (r : res A * state) : list item := st_queue (snd r).

Definition emitted_tags (q : list item) : list (list string) :=
  flat_map (fun x => match x with IMeta mi => [mi_tags mi] | ICover _ => [] end) q.

Definition emitted_authors (q : list item) : list (list string) :=
  flat_map (fun x => match x with IMeta mi => [mi_authors mi] | ICover _ => [] end) q.

Definition st_aborted : state := mk_state [] [] ∅ true.

Definition two_covers_page : response :=
  detail_page (Some [Some "A"])
    "https://im.books.com.tw/img/0010.jpg?v=1&u=https://im.books.com.tw/img/0020.jpg"
    "2020/05/03" [].

Definition two_hits : list string :=
  ["//www.books.com.tw/products/item/0010/a"; "//www.books.com.tw/products/item/0020/b"].

Definition authors_run (author : option (list (option string))) :=
  retrieve_bokelai_detail (site (detail_page author image_ok "2020/05/03" []) [] [])
    parse_ymd re_none "0010" 30 st0.

Definition ids_empty_bokelai : gmap string string :=
  <[ "bokelai" := "" ]> {[ "isbn" := "9789862376836" ]}.


Definition cover_ok : string := "https://im.books.com.tw/img/001/0010.jpg".


Definition st_cached : state := mk_state [] [] {[ "0010" := cover_ok ]} false.

Definition tag_texts : list string := ["Fiction/Drama"; "Poetry"].

(** An empty body: [etree.HTML(b'')] is [None]. *)
Definition empty_page : response := mk_response false [] [] [] [] [].

End Fixture.

Import Fixture.

Example split_fullwidth : PyStr.split "／" "Fiction／Drama" = ["Fiction"; "Drama"].
Proof. reflexivity. Qed.
Example split_comma : PyStr.split "," "A,B,C" = ["A"; "B"; "C"].
Proof. reflexivity. Qed.
Example split_empty : PyStr.split "," "" = [""].
Proof. reflexivity. Qed.

Example meta_free_ex :
  Re.meta_free "0010854" = true /\ Re.meta_free "a?b" = false /\ Re.meta_free "00.0" = false.
Proof. repeat split. Qed.

Example cover_search_ex :
  Re.cover_search "0010" "x https://im.books.com.tw/img/001/0010.jpg?v=1"
  = Some "https://im.books.com.tw/img/001/0010.jpg".
Proof. reflexivity. Qed.
Example item_search_ex :
  Re.item_search "//www.books.com.tw/products/item/0010854/page" = Some "0010854".
Proof. reflexivity. Qed.

Example parse_ymd_ex : parse_ymd "2020/05/03" = Some (mk_date 2020 5 3).
Proof. reflexivity. Qed.
Example good_run :
  emitted_authors (queue_of (retrieve_bokelai_detail (site good_page [] []) parse_ymd re_none "0010" 30 st0))
  = [["A"; "B"; "C"]].
Proof. vm_compute. reflexivity. Qed.

(** ** General facts about the embedding *)



(** An anchor text with a full-width slash and no ASCII slash is added
    twice: once split, once whole. *)
Lemma extend_tags_fullwidth_only (tags : list string) (text : string) :
  PyStr.contains "／" text = true -> PyStr.contains "/" text = false ->
  extend_tags tags text = (tags ++ PyStr.split "／" text ++ [text])%list.
Proof.
  intros H1 H2. unfold extend_tags. rewrite H1, H2. by rewrite app_assoc.
Qed.

(** ** C1 *)

(** C1 (code_bug): on the classification anchors ["Fiction／Drama";
    "Romance"] detail retrieval emits the tags ["Fiction"; "Drama";
    "Fiction／Drama"; "Romance"]: the first anchor appears both split and
    whole, because the ASCII-slash test has an [else] that also runs after
    the full-width split. *)
Theorem C1_tags_fiction_drama :
  emitted_tags (queue_of (retrieve_bokelai_detail
    (site (detail_page (Some [Some "A,B,C"]) image_ok "2020/05/03"
             [Some "Fiction／Drama"; Some "Romance"]) [] [])
    parse_ymd re_none "0010" 30 st0))
  = [["Fiction"; "Drama"; "Fiction／Drama"; "Romance"]].
Proof. vm_compute. reflexivity. Qed.

(** ** C2 *)

(** C2 (code_bug): with the abort flag set before the loop starts,
    identify still runs detail retrieval for both candidates: both detail
    urls are logged and both records are emitted. *)
Theorem C2_abort_ignored :
  let r := identify (site two_covers_page two_hits []) parse_ymd re_none None None
             {[ "isbn" := "9789862376836" ]} 30 st_aborted in
  In (LInfo [BOKELAI_DETAIL_URL "0010"]) (st_log (snd r)) /\
  In (LInfo [BOKELAI_DETAIL_URL "0020"]) (st_log (snd r)) /\
  length (st_queue (snd r)) = 2%nat /\ st_abort (snd r) = true.
Proof. vm_compute. repeat split; auto 20. Qed.

(** ** C3 *)

(** C3 (code_bug): when [image] holds no url around the book id,
    [re.search] returns [None] and [.group(0)] raises: detail retrieval
    ends with an exception and emits no record. *)
Theorem C3_no_cover_match_raises :
  let r := retrieve_bokelai_detail
             (site (detail_page (Some [Some "A"]) "no cover" "2020/05/03" []) [] [])
             parse_ymd re_none "0010" 30 st0 in
  fst r = Raised AttributeError /\ st_queue (snd r) = [].
Proof. vm_compute. split; reflexivity. Qed.

(** ** C4 *)

(** C4 (code_bug): "A,B,C" gives the authors ["A"; "B"; "C"], but an empty
    author name gives [[""]] (["".split(",")] is [[""]], so the "Unknown"
    guard never fires, see [split_not_nil]) and an absent author field
    raises a [KeyError] and emits nothing. *)
Theorem C4_authors :
  emitted_authors (queue_of (authors_run (Some [Some "A,B,C"]))) = [["A"; "B"; "C"]] /\
  emitted_authors (queue_of (authors_run (Some [Some ""]))) = [[""]] /\
  fst (authors_run None) = Raised (KeyError "author") /\
  queue_of (authors_run None) = [].
Proof. vm_compute. repeat split. Qed.

(** ** C5 *)

Lemma string_append_assoc (a b c : string) : (a ++ b) ++ c = a ++ (b ++ c).
Proof. induction a as [|x a IH]; [reflexivity | exact (f_equal (String x) IH)]. Qed.

Lemma string_append_nil_r (a : string) : a ++ "" = a.
Proof. induction a as [|x a IH]; [reflexivity | exact (f_equal (String x) IH)]. Qed.

Lemma string_length_append (a b : string) :
  String.length (a ++ b) = (String.length a + String.length b)%nat.
Proof. induction a as [|x a IH]; [reflexivity | exact (f_equal S IH)]. Qed.

Lemma fold_append (l : list string) :
  forall s, fold_left (fun acc author => acc ++ author) l s = s ++ foldr String.append "" l.
Proof.
  induction l as [|x l IH]; intros s; simpl.
  - by rewrite string_append_nil_r.
  - by rewrite IH, string_append_assoc.
Qed.

(** The query string is the title, then every author, with no separator. *)
Lemma search_str_concat (title : option string) (authors : option (list string)) :
  search_str title authors = default "" title ++ foldr String.append "" (default [] authors).
Proof.
  unfold search_str. cbv zeta.
  assert (Ht : (if truthy_str title then "" ++ default "" title else "") = default "" title).
  { destruct title as [t|]; [|reflexivity]. unfold truthy_str.
    destruct (String.eqb_spec t "") as [->|_]; reflexivity. }
  rewrite Ht.
  destruct authors as [[|a l]|];
    [symmetry; apply string_append_nil_r | exact (fold_append (a :: l) _) | symmetry; apply string_append_nil_r].
Qed.

Lemma truthy_str_false (o : option string) :
  (forall v, o = Some v -> v = "") -> truthy_str o = false.
Proof.
  destruct o as [v|]; simpl; [|reflexivity].
  intros H. rewrite (H v eq_refl). reflexivity.
Qed.

Lemma truthy_str_true (v : string) : v <> "" -> truthy_str (Some v) = true.
Proof.
  intros H. simpl. destruct (String.eqb_spec v "") as [E|_]; [contradiction | reflexivity].
Qed.

(** C5 (counterexample): a [bokelai] key holding the empty string is
    present in the map, yet identify does not delegate to detail retrieval
    (which would log the detail url first): it runs the ISBN search. *)
Lemma C5_empty_id_searches :
  let r := identify offline parse_ymd re_none None None ids_empty_bokelai 30 st0 in
  ids_empty_bokelai !! "bokelai" = Some "" /\
  fst r = Ok (Some "timed out") /\
  st_log (snd r) =
    [LException ["Failed to make identify query: " ++ BOKELAI_QUERY_URL "9789862376836"]].
Proof. vm_compute. repeat split. Qed.

(** C5 (amended): first match wins on non-empty values. A non-empty bokelai
    id makes identify exactly detail retrieval for it followed by returning
    nothing; else a non-empty ISBN makes it the query on the ISBN's search
    url; else it is the query on the search url of the title followed by
    all author names, with no separator. *)
Theorem C5_decision_order open_novisit parse_date re_search_meta
    (title : option string) (authors : option (list string))
    (identifiers : gmap string string) (timeout : Z) :
  (forall id, identifiers !! "bokelai" = Some id -> id <> "" ->
     identify open_novisit parse_date re_search_meta title authors identifiers timeout =
     (retrieve_bokelai_detail open_novisit parse_date re_search_meta id timeout ;;; ret None)) /\
  ((forall id, identifiers !! "bokelai" = Some id -> id = "") ->
   forall isbn, identifiers !! "isbn" = Some isbn -> isbn <> "" ->
     identify open_novisit parse_date re_search_meta title authors identifiers timeout =
     identify_query open_novisit parse_date re_search_meta (BOKELAI_QUERY_URL isbn) timeout) /\
  ((forall id, identifiers !! "bokelai" = Some id -> id = "") ->
   (forall isbn, identifiers !! "isbn" = Some isbn -> isbn = "") ->
     identify open_novisit parse_date re_search_meta title authors identifiers timeout =
     identify_query open_novisit parse_date re_search_meta
       (BOKELAI_QUERY_URL (default "" title ++ foldr String.append "" (default [] authors)))
       timeout).
Proof.
  unfold identify. split; [|split].
  - intros id Hid Hne. rewrite Hid, (truthy_str_true id Hne). reflexivity.
  - intros Hb isbn Hi Hne. rewrite (truthy_str_false _ Hb).
    unfold identify_search_url. rewrite Hi, (truthy_str_true isbn Hne). reflexivity.
  - intros Hb Hi. rewrite (truthy_str_false _ Hb).
    unfold identify_search_url. rewrite (truthy_str_false _ Hi), search_str_concat.
    reflexivity.
Qed.

Lemma C5_decision_order_witness :
  identify offline parse_ymd re_none None None {[ "bokelai" := "0010" ]} 30 =
    (retrieve_bokelai_detail offline parse_ymd re_none "0010" 30 ;;; ret None) /\
  identify offline parse_ymd re_none None None {[ "isbn" := "978" ]} 30 =
    identify_query offline parse_ymd re_none (BOKELAI_QUERY_URL "978") 30 /\
  identify offline parse_ymd re_none (Some "T") (Some ["A"; "B"]) ∅ 30 =
    identify_query offline parse_ymd re_none (BOKELAI_QUERY_URL ("T" ++ foldr String.append "" ["A"; "B"])) 30.
Proof.
  destruct (C5_decision_order offline parse_ymd re_none None None {[ "bokelai" := "0010" ]} 30)
    as [H1 _].
  destruct (C5_decision_order offline parse_ymd re_none None None {[ "isbn" := "978" ]} 30)
    as [_ [H2 _]].
  destruct (C5_decision_order offline parse_ymd re_none (Some "T") (Some ["A"; "B"]) ∅ 30)
    as [_ [_ H3]].
  split; [|split].
  - apply H1; [reflexivity | discriminate].
  - apply H2; [intros id H; discriminate H | reflexivity | discriminate].
  - apply H3; intros v H; discriminate H.
Defined.

(** ** C6 *)

Lemma parse_hrefs_state (urls : list string) :
  forall s, snd (parse_hrefs urls s) = s.
Proof.
  induction urls as [|url rest IH]; intros s; [reflexivity|].
  cbn [parse_hrefs]. unfold bind.
  destruct (Re.item_search url) as [b|]; [|reflexivity].
  cbn [ret]. specialize (IH s). destruct (parse_hrefs rest s) as [[bids|e] s'].
  - exact IH.
  - exact IH.
Qed.

Lemma parse_page_root (raw : response) (s : state) :
  r_root raw = true -> parse_bokelai_query_page raw s = parse_hrefs (r_search_hrefs raw) s.
Proof. intros H. unfold parse_bokelai_query_page, html_root, bind. by rewrite H. Qed.

Lemma parse_page_no_root (raw : response) (s : state) :
  r_root raw = false -> parse_bokelai_query_page raw s = (Raised AttributeError, s).
Proof. intros H. unfold parse_bokelai_query_page, html_root, bind. by rewrite H. Qed.

(** C6: on the search path, a failed search fetch is logged and its error
    text is returned; an empty candidate list is logged as "No result
    found." and identify returns nothing, emitting no record. *)
Theorem C6_identify_errors open_novisit parse_date re_search_meta
    (title : option string) (authors : option (list string))
    (identifiers : gmap string string) (timeout : Z) (s : state) :
  (forall id, identifiers !! "bokelai" = Some id -> id = "") ->
  let search_url := identify_search_url (identifiers !! "isbn") title authors in
  (forall e, open_novisit search_url timeout = inl e ->
     identify open_novisit parse_date re_search_meta title authors identifiers timeout s =
     (Ok (Some e),
      mk_state (st_log s ++ [LException ["Failed to make identify query: " ++ search_url]])
        (st_queue s) (st_cache s) (st_abort s))) /\
  (forall raw, open_novisit search_url timeout = inr raw ->
     fst (parse_bokelai_query_page raw s) = Ok [] ->
     identify open_novisit parse_date re_search_meta title authors identifiers timeout s =
     (Ok None,
      mk_state (st_log s ++ [LError ["No result found." ++ newline; "query: " ++ search_url]])
        (st_queue s) (st_cache s) (st_abort s))).
Proof.
  intros Hb search_url. unfold identify. rewrite (truthy_str_false _ Hb).
  fold search_url. unfold identify_query. split.
  - intros e He. rewrite He. reflexivity.
  - intros raw Hr Hp. rewrite Hr. unfold bind at 1.
    destruct (r_root raw) eqn:Hroot.
    2: { rewrite (parse_page_no_root raw s Hroot) in Hp. discriminate Hp. }
    pose proof (parse_hrefs_state (r_search_hrefs raw) s) as Hs.
    rewrite (parse_page_root raw s Hroot) in Hp |- *.
    destruct (parse_hrefs (r_search_hrefs raw) s) as [r s'] eqn:E.
    simpl in Hp, Hs. subst r s'. reflexivity.
Qed.

Lemma C6_identify_errors_witness :
  identify offline parse_ymd re_none (Some "T") None ∅ 30 st0 =
    (Ok (Some "timed out"),
     mk_state [LException ["Failed to make identify query: " ++ BOKELAI_QUERY_URL "T"]] [] ∅ false) /\
  identify (site good_page [] []) parse_ymd re_none (Some "T") None ∅ 30 st0 =
    (Ok None,
     mk_state [LError ["No result found." ++ newline; "query: " ++ BOKELAI_QUERY_URL "T"]] [] ∅ false).
Proof.
  destruct (C6_identify_errors offline parse_ymd re_none (Some "T") None ∅ 30 st0) as [H1 _].
  { intros id H. discriminate H. }
  destruct (C6_identify_errors (site good_page [] []) parse_ymd re_none (Some "T") None ∅ 30 st0)
    as [_ H2].
  { intros id H. discriminate H. }
  split.
  - apply H1. reflexivity.
  - apply (H2 (search_page [])); reflexivity.
Defined.

(** ** A successful detail retrieval *)

Lemma collect_tags_texts (texts : list string) :
  forall tags l q c a,
  collect_tags (map Some texts) tags (mk_state l q c a) =
  (Ok (fold_left extend_tags texts tags),
   mk_state (l ++ map (fun t => LInfo [t]) texts) q c a).
Proof.
  induction texts as [|t texts IH]; intros tags l q c a; simpl.
  - by rewrite app_nil_r.
  - unfold bind, log_info, push_log, with_state. simpl.
    rewrite IH. by rewrite <- app_assoc.
Qed.


Section Run.

Variable open_novisit : string -> Z -> string + response.
Variable parse_date : string -> option date.
Variable re_search_meta : string -> string -> string + option string.
Variables (bokelai_id : string) (timeout : Z) (raw : response).
Variables (script : ld_script) (scripts : list ld_script) (info_json : ld_json).
Variables (title author_name publisher isbn pubdate image cover_url : string).
Variables (authors_rest publishers_rest : list (option string)) (texts : list string).

Hypothesis Hopen : open_novisit (BOKELAI_DETAIL_URL bokelai_id) timeout = inr raw.
Hypothesis Hroot : r_root raw = true.
Hypothesis Hscr : r_ld_scripts raw = script :: scripts.
Hypothesis Hjson : sc_json script = Some info_json.
Hypothesis Hname : ld_name info_json = Some title.
Hypothesis Hauth : ld_author info_json = Some (Some author_name :: authors_rest).
Hypothesis Hpub : ld_publisher info_json = Some (Some publisher :: publishers_rest).
Hypothesis Hisbn : ld_isbn info_json = Some isbn.
Hypothesis Hdate : ld_datePublished info_json = Some pubdate.
Hypothesis Hanch : r_class_anchors raw = map Some texts.
Hypothesis Himg : ld_image info_json = Some image.
Hypothesis Hcover : cover_regex_search re_search_meta bokelai_id image = inr (Some cover_url).


End Run.

(** ** C7 *)



(** ** C8 *)




(** ** C9 *)

(** C9: [get_cached_cover_url] leaves the state (cache, queue, log)
    untouched, answers [None] when the map has no bokelai id and the
    cache's entry for the id otherwise, and two calls in a row give the
    same answer. *)
Theorem C9_cached_cover_pure (identifiers : gmap string string) (s : state) :
  let r := match identifiers !! "bokelai" with
           | Some bokelai_id => st_cache s !! bokelai_id
           | None => None
           end in
  get_cached_cover_url identifiers s = (Ok r, s) /\
  (u1 <- get_cached_cover_url identifiers ;;
   u2 <- get_cached_cover_url identifiers ;;
   ret (u1, u2)) s = (Ok (r, r), s).
Proof.
  intros r. unfold get_cached_cover_url, r.
  destruct (identifiers !! "bokelai") as [id|]; split; reflexivity.
Qed.

(** ** C10 *)

Create HintDb queue_db.

Lemma keeps_emits {A} (m : M A) : keeps_queue m -> emits_nonempty_cover m.
Proof. intros H s. exists []. rewrite H, app_nil_r. auto. Qed.

Lemma ret_keeps {A} (a : A) : keeps_queue (ret a).
Proof. intros s. reflexivity. Qed.

Lemma push_log_keeps (e : log_entry) : keeps_queue (push_log e).
Proof. intros s. reflexivity. Qed.

Lemma is_set_keeps : keeps_queue is_set.
Proof. intros s. reflexivity. Qed.

Lemma get_cached_keeps (identifiers : gmap string string) :
  keeps_queue (get_cached_cover_url identifiers).
Proof. intros s. unfold get_cached_cover_url. by destruct (identifiers !! "bokelai"). Qed.

Lemma run_on_fresh_queue_keeps {A} (m : M A) : keeps_queue (run_on_fresh_queue m).
Proof.
  intros s. unfold run_on_fresh_queue.
  destruct (m _) as [[a|e] s']; reflexivity.
Qed.

Lemma bind_keeps {A B} (m : M A) (f : A -> M B) :
  keeps_queue m -> (forall a, keeps_queue (f a)) -> keeps_queue (bind m f).
Proof.
  intros Hm Hf s. unfold bind. specialize (Hm s).
  destruct (m s) as [[a|e] s'] eqn:E; simpl in *; [rewrite Hf|]; exact Hm.
Qed.

Lemma bind_emits {A B} (m : M A) (f : A -> M B) :
  keeps_queue m -> (forall a, emits_nonempty_cover (f a)) -> emits_nonempty_cover (bind m f).
Proof.
  intros Hm Hf s. unfold bind. specialize (Hm s).
  destruct (m s) as [[a|e] s'] eqn:E; simpl in *.
  - destruct (Hf a s') as [new [Hq Hn]]. exists new. rewrite Hq, Hm. auto.
  - exists []. rewrite Hm, app_nil_r. auto.
Qed.

#[local] Hint Resolve ret_keeps push_log_keeps is_set_keeps get_cached_keeps
  run_on_fresh_queue_keeps bind_keeps keeps_emits : queue_db.

Lemma first_cached_keeps (results : list Metadata) : keeps_queue (first_cached results).
Proof.
  induction results as [|mi rest IH]; simpl; [auto with queue_db|].
  apply bind_keeps; [auto with queue_db|]. intros [u|]; auto with queue_db.
Qed.

#[local] Hint Resolve first_cached_keeps : queue_db.

Lemma fetch_cover_emits open_novisit (cached_url : string) (timeout : Z) :
  emits_nonempty_cover (fetch_cover open_novisit cached_url timeout).
Proof.
  unfold fetch_cover. apply bind_emits; [auto with queue_db|]. intros [|].
  - auto with queue_db.
  - apply bind_emits; [auto with queue_db|]. intros _.
    destruct (open_novisit cached_url timeout) as [e|r]; [auto with queue_db|].
    destruct (r_body r) as [|b bs] eqn:E; [auto with queue_db|].
    intros s. exists [ICover (b :: bs)]. split; [reflexivity|].
    right. exists (b :: bs). split; [discriminate | reflexivity].
Qed.

#[local] Hint Resolve fetch_cover_emits : queue_db.

(** C10: every run of download_cover adds to the result queue either
    nothing or a single cover payload with non-empty bytes; and once the
    cover fetch has answered with an empty body, the run ends normally
    with nothing added to the queue. *)
Theorem C10_cover_payload_nonempty open_novisit parse_date re_search_meta identify_results_sort
    (title : option string) (authors : option (list string))
    (identifiers : gmap string string) (timeout : Z) :
  emits_nonempty_cover
    (download_cover open_novisit parse_date re_search_meta identify_results_sort title authors identifiers timeout) /\
  (forall (cached_url : string) (r : response) (s : state),
     st_abort s = false ->
     open_novisit cached_url timeout = inr r -> r_body r = [] ->
     fetch_cover open_novisit cached_url timeout s =
     (Ok tt, mk_state (app (st_log s) [LInfo ["Downloading cover from:"; cached_url]])
               (st_queue s) (st_cache s) (st_abort s))).
Proof.
  split.
  - unfold download_cover. apply bind_emits; [auto with queue_db|]. intros [url|].
    + auto with queue_db.
    + apply bind_emits; [auto with queue_db|]. intros _.
      apply bind_emits; [auto with queue_db|]. intros rq.
      apply bind_emits; [auto with queue_db|]. intros [|]; [auto with queue_db|].
      apply bind_emits; [auto with queue_db|]. intros [url|]; auto with queue_db.
  - intros cached_url r [l q c a] Ha Ho Hb. simpl in Ha. subst a. unfold fetch_cover, bind.
    cbn [is_set fst snd]. cbn [log_info push_log with_state st_log st_queue st_cache st_abort].
    rewrite Ho, Hb. reflexivity.
Qed.

Lemma C10_cover_payload_nonempty_witness :
  fetch_cover (site good_page [] []) "https://im.books.com.tw/img/001/0010.jpg" 30 st0 =
  (Ok tt, mk_state (app [] [LInfo ["Downloading cover from:"; "https://im.books.com.tw/img/001/0010.jpg"]])
            [] ∅ false).
Proof.
  apply (proj2 (C10_cover_payload_nonempty (site good_page [] []) parse_ymd re_none no_sort
                  None None ∅ 30) _ (mk_response true [] [] [] [] []) st0);
    reflexivity.
Defined.

(** ** The shape of a detail retrieval *)

Lemma collect_tags_shape (anchors : list (option string)) :
  forall tags l q c a, exists r l',
  collect_tags anchors tags (mk_state l q c a) = (r, mk_state l' q c a).
Proof.
  induction anchors as [|ele rest IH]; intros tags l q c a; simpl.
  - by do 2 eexists.
  - unfold bind, log_info, push_log, with_state. cbn [st_log st_queue st_cache st_abort].
    destruct ele as [t|]; cbn [ret raise].
    + apply IH.
    + by do 2 eexists.
Qed.

Lemma set_pubdate_shape parse_date (mi : Metadata) (pubdate : string) l q c a :
  exists l' mi', set_pubdate parse_date mi pubdate (mk_state l q c a) = (Ok mi', mk_state l' q c a)
    /\ mi_identifiers mi' = mi_identifiers mi.
Proof.
  unfold set_pubdate.
  destruct (String.eqb pubdate ""); [by do 2 eexists|].
  destruct (parse_date pubdate); [by do 2 eexists|].
  unfold bind, log_error, push_log, with_state. by do 2 eexists.
Qed.

Ltac mred E :=
  cbv [bind ret raise getkey index0 html_root log_info log_error log_exception push_log
       with_state st_log st_queue st_cache st_abort fst snd] in E.

Ltac mdone E := injection E as <- <-; cbn [st_queue st_cache st_abort]; auto.

(** Every detail retrieval either leaves the queue and the cache as they
    were, or ends normally after adding exactly one record, whose
    "bokelai" identifier is the requested id and whose cover url is the
    one just cached for that id. *)
Lemma retrieve_shape open_novisit parse_date re_search_meta (bokelai_id : string) (timeout : Z) l q c a
    (r : res unit) (s' : state) :
  retrieve_bokelai_detail open_novisit parse_date re_search_meta bokelai_id timeout (mk_state l q c a) = (r, s') ->
  st_abort s' = a /\
  ((st_queue s' = q /\ st_cache s' = c) \/
   (r = Ok tt /\ exists mi url,
      st_queue s' = app q [IMeta mi] /\ st_cache s' = <[bokelai_id := url]> c /\
      mi_identifiers mi !! "bokelai" = Some bokelai_id /\ mi_has_bokelai_cover mi = Some url)).
Proof.
  intros E. unfold retrieve_bokelai_detail in E. mred E.
  destruct (open_novisit _ timeout) as [e|raw]; [mdone E|].
  destruct (r_root raw); mred E; [|mdone E].
  destruct (r_ld_scripts raw) as [|script scripts]; mred E; [mdone E|].
  destruct (sc_json script) as [j|]; mred E; [|mdone E].
  destruct (ld_name j) as [title|]; mred E; [|mdone E].
  destruct (ld_author j) as [[|[an|] ar]|]; mred E; try mdone E.
  destruct (ld_publisher j) as [[|[pn|] pr]|]; mred E; try mdone E.
  destruct (ld_isbn j) as [isbn|]; mred E; [|mdone E].
  destruct (ld_datePublished j) as [pd|]; mred E; [|mdone E].
  match type of E with context [collect_tags ?an ?t (mk_state ?l0 ?q0 ?c0 ?a0)] =>
    destruct (collect_tags_shape an t l0 q0 c0 a0) as [rt [lt Ht]]; rewrite Ht in E end.
  destruct rt as [tags|e]; mred E; [|mdone E].
  destruct (ld_image j) as [image|]; mred E; [|mdone E].
  destruct (cover_regex_search re_search_meta bokelai_id image) as [msg|[url|]]; mred E;
    [mdone E| |mdone E].
  match type of E with context [set_pubdate ?p ?m ?d (mk_state ?l0 ?q0 ?c0 ?a0)] =>
    destruct (set_pubdate_shape p m d l0 q0 c0 a0) as [lp [mi' [Hp Hid]]]; rewrite Hp in E end.
  cbn [with_cover mi_identifiers mi_has_bokelai_cover] in E.
  rewrite Hid in E. cbn [mi_identifiers] in E.
  rewrite lookup_insert_ne in E by done. rewrite lookup_insert_eq in E.
  cbv [getkey ret cache_identifier_to_cover_url put with_state st_log st_queue st_cache
       st_abort] in E.
  injection E as <- <-. cbn [st_queue st_cache st_abort].
  split; [reflexivity|]. right. split; [reflexivity|].
  exists (with_cover mi' (Some url)), url. cbn [with_cover mi_identifiers mi_has_bokelai_cover].
  rewrite Hid. cbn [mi_identifiers].
  rewrite lookup_insert_ne by done. rewrite lookup_insert_eq. auto.
Qed.

(** ** Records only, abort flag untouched *)

Lemma bind_records {A B} (m : M A) (f : A -> M B) :
  adds_only_records m -> (forall a, adds_only_records (f a)) -> adds_only_records (bind m f).
Proof.
  intros Hm Hf s. unfold bind. destruct (Hm s) as [new1 [Hq1 Hn1]].
  destruct (m s) as [[a|e] s'] eqn:E; simpl in *.
  - destruct (Hf a s') as [new2 [Hq2 Hn2]]. exists (app new1 new2).
    rewrite Hq2, Hq1, app_assoc. split; [reflexivity|]. by apply Forall_app.
  - by exists new1.
Qed.

Lemma keeps_records {A} (m : M A) : keeps_queue m -> adds_only_records m.
Proof. intros H s. exists []. rewrite H, app_nil_r. auto. Qed.

Lemma bind_keeps_abort {A B} (m : M A) (f : A -> M B) :
  keeps_abort m -> (forall a, keeps_abort (f a)) -> keeps_abort (bind m f).
Proof.
  intros Hm Hf s. unfold bind. specialize (Hm s).
  destruct (m s) as [[a|e] s'] eqn:E; simpl in *; [rewrite Hf|]; exact Hm.
Qed.

Lemma ret_keeps_abort {A} (a : A) : keeps_abort (ret a).
Proof. intros s. reflexivity. Qed.

Lemma push_log_keeps_abort (e : log_entry) : keeps_abort (push_log e).
Proof. intros s. reflexivity. Qed.

Lemma log_info_keeps_abort (args : list string) : keeps_abort (log_info args).
Proof. intros s. reflexivity. Qed.
Lemma log_error_keeps_abort (args : list string) : keeps_abort (log_error args).
Proof. intros s. reflexivity. Qed.
Lemma log_exception_keeps_abort (args : list string) : keeps_abort (log_exception args).
Proof. intros s. reflexivity. Qed.
Lemma log_info_keeps (args : list string) : keeps_queue (log_info args).
Proof. intros s. reflexivity. Qed.
Lemma log_error_keeps (args : list string) : keeps_queue (log_error args).
Proof. intros s. reflexivity. Qed.
Lemma log_exception_keeps (args : list string) : keeps_queue (log_exception args).
Proof. intros s. reflexivity. Qed.

Lemma retrieve_records open_novisit parse_date re_search_meta (bokelai_id : string) (timeout : Z) :
  adds_only_records (retrieve_bokelai_detail open_novisit parse_date re_search_meta bokelai_id timeout).
Proof.
  intros [l q c a].
  destruct (retrieve_bokelai_detail _ _ _ _ _ _) as [r s'] eqn:E.
  destruct (retrieve_shape _ _ _ _ _ _ _ _ _ _ _ E) as [_ [[Hq _]|[_ [mi [url [Hq _]]]]]];
    simpl; rewrite Hq.
  - exists []. rewrite app_nil_r. auto.
  - exists [IMeta mi]. split; [reflexivity|]. constructor; [eauto|constructor].
Qed.

Lemma retrieve_keeps_abort open_novisit parse_date re_search_meta (bokelai_id : string) (timeout : Z) :
  keeps_abort (retrieve_bokelai_detail open_novisit parse_date re_search_meta bokelai_id timeout).
Proof.
  intros [l q c a].
  destruct (retrieve_bokelai_detail _ _ _ _ _ _) as [r s'] eqn:E.
  exact (proj1 (retrieve_shape _ _ _ _ _ _ _ _ _ _ _ E)).
Qed.

Lemma parse_hrefs_keeps (urls : list string) : keeps_queue (parse_hrefs urls).
Proof. intros s. by rewrite parse_hrefs_state. Qed.

Lemma parse_hrefs_keeps_abort (urls : list string) : keeps_abort (parse_hrefs urls).
Proof. intros s. by rewrite parse_hrefs_state. Qed.

Lemma parse_page_state (raw : response) (s : state) :
  snd (parse_bokelai_query_page raw s) = s.
Proof.
  destruct (r_root raw) eqn:H.
  - rewrite parse_page_root by exact H. apply parse_hrefs_state.
  - by rewrite parse_page_no_root.
Qed.

Lemma parse_page_keeps (raw : response) : keeps_queue (parse_bokelai_query_page raw).
Proof. intros s. by rewrite parse_page_state. Qed.

Lemma parse_page_keeps_abort (raw : response) : keeps_abort (parse_bokelai_query_page raw).
Proof. intros s. by rewrite parse_page_state. Qed.

#[local] Hint Resolve log_info_keeps_abort log_error_keeps_abort log_exception_keeps_abort
  log_info_keeps log_error_keeps log_exception_keeps : queue_db.

#[local] Hint Resolve keeps_records ret_keeps_abort push_log_keeps_abort retrieve_records
  retrieve_keeps_abort parse_page_keeps parse_page_keeps_abort : queue_db.

Lemma for_each_records {A} (f : A -> M unit) (l : list A) :
  (forall x, adds_only_records (f x)) -> adds_only_records (for_each f l).
Proof.
  intros Hf. induction l as [|x l IH]; simpl; [auto with queue_db|].
  apply bind_records; auto.
Qed.

Lemma for_each_keeps_abort {A} (f : A -> M unit) (l : list A) :
  (forall x, keeps_abort (f x)) -> keeps_abort (for_each f l).
Proof.
  intros Hf. induction l as [|x l IH]; simpl; [auto with queue_db|].
  apply bind_keeps_abort; auto.
Qed.

Lemma identify_query_records open_novisit parse_date re_search_meta (search_url : string) (timeout : Z) :
  adds_only_records (identify_query open_novisit parse_date re_search_meta search_url timeout).
Proof.
  unfold identify_query. destruct (open_novisit search_url timeout) as [e|raw].
  - apply bind_records; auto with queue_db.
  - apply bind_records; [auto with queue_db|].
    intros [|bid bids].
    + apply bind_records; auto with queue_db.
    + apply bind_records; [|auto with queue_db]. apply for_each_records. intros x.
      apply bind_records; auto with queue_db.
Qed.

Lemma identify_query_keeps_abort open_novisit parse_date re_search_meta (search_url : string) (timeout : Z) :
  keeps_abort (identify_query open_novisit parse_date re_search_meta search_url timeout).
Proof.
  unfold identify_query. destruct (open_novisit search_url timeout) as [e|raw].
  - apply bind_keeps_abort; auto with queue_db.
  - apply bind_keeps_abort; [auto with queue_db|].
    intros [|bid bids].
    + apply bind_keeps_abort; auto with queue_db.
    + apply bind_keeps_abort; [|auto with queue_db]. apply for_each_keeps_abort. intros x.
      apply bind_keeps_abort; auto with queue_db.
Qed.

Lemma identify_keeps_abort open_novisit parse_date re_search_meta (title : option string)
    (authors : option (list string)) (identifiers : gmap string string) (timeout : Z) :
  keeps_abort (identify open_novisit parse_date re_search_meta title authors identifiers timeout).
Proof.
  unfold identify. destruct (truthy_str _).
  - apply bind_keeps_abort; auto with queue_db.
  - apply identify_query_keeps_abort.
Qed.

Lemma run_on_fresh_queue_keeps_abort {A} (m : M A) :
  keeps_abort m -> keeps_abort (run_on_fresh_queue m).
Proof.
  intros Hm s. unfold run_on_fresh_queue.
  specialize (Hm (mk_state (st_log s) [] (st_cache s) (st_abort s))).
  destruct (m _) as [[a|e] s']; simpl in *; exact Hm.
Qed.

(** [if abort.is_set(): return] after an action that keeps the queue and
    the flag: with the flag set, nothing reaches the queue. *)
Lemma abort_gate {A} (m : M A) (k : A -> M unit) (s : state) :
  keeps_queue m -> keeps_abort m -> st_abort s = true ->
  st_queue (snd ((x <- m ;; b <- is_set ;; if b then ret tt else k x) s)) = st_queue s.
Proof.
  intros Hq Ha Hs. unfold bind at 1. specialize (Hq s). specialize (Ha s).
  destruct (m s) as [[x|e] s'] eqn:E; cbn [fst snd] in *; [|exact Hq].
  cbv [bind is_set]. rewrite Ha, Hs. exact Hq.
Qed.

(** ** Extra properties *)

(** A detail retrieval either leaves the result queue and the cover cache
    as they were, or ends normally having added exactly one item to the
    queue, a metadata record. *)
Theorem retrieve_at_most_one_record open_novisit parse_date re_search_meta (bokelai_id : string)
    (timeout : Z) (s : state) :
  let r := retrieve_bokelai_detail open_novisit parse_date re_search_meta bokelai_id timeout s in
  (st_queue (snd r) = st_queue s /\ st_cache (snd r) = st_cache s) \/
  (fst r = Ok tt /\ exists mi, st_queue (snd r) = app (st_queue s) [IMeta mi]).
Proof.
  destruct s as [l q c a]. intros r.
  destruct (retrieve_bokelai_detail _ _ _ _ _ _) as [r0 s'] eqn:E in r. subst r.
  destruct (retrieve_shape _ _ _ _ _ _ _ _ _ _ _ E) as [_ [H|[Hr [mi [url [Hq _]]]]]].
  - left. exact H.
  - right. split; [exact Hr|]. exists mi. exact Hq.
Qed.



(** identify never puts a cover payload on the result queue: whatever it
    adds are metadata records. *)
Theorem identify_adds_only_records open_novisit parse_date re_search_meta (title : option string)
    (authors : option (list string)) (identifiers : gmap string string) (timeout : Z) :
  adds_only_records (identify open_novisit parse_date re_search_meta title authors identifiers timeout).
Proof.
  unfold identify. destruct (truthy_str _).
  - apply bind_records; auto with queue_db.
  - apply identify_query_records.
Qed.



Lemma get_cached_state (identifiers : gmap string string) (s : state) :
  snd (get_cached_cover_url identifiers s) = s.
Proof. unfold get_cached_cover_url. by destruct (identifiers !! "bokelai"). Qed.

(** With the abort flag set when download_cover starts, nothing is put on
    the result queue, whether the cover url is cached or identify has to
    run first. *)
Theorem download_cover_aborted_emits_nothing open_novisit parse_date re_search_meta identify_results_sort
    (title : option string) (authors : option (list string))
    (identifiers : gmap string string) (timeout : Z) (s : state) :
  st_abort s = true ->
  st_queue (snd (download_cover open_novisit parse_date re_search_meta identify_results_sort
                   title authors identifiers timeout s)) = st_queue s.
Proof.
  intros Ha. unfold download_cover. unfold bind at 1.
  pose proof (get_cached_state identifiers s) as Hs.
  destruct (get_cached_cover_url identifiers s) as [[u|e] s'] eqn:E; cbn [fst snd] in *;
    subst s'; [|reflexivity].
  destruct u as [url|].
  - unfold fetch_cover. cbv [bind is_set]. rewrite Ha. reflexivity.
  - unfold bind at 1. cbv [log_info push_log with_state].
    erewrite abort_gate; [reflexivity | apply run_on_fresh_queue_keeps | | exact Ha].
    apply run_on_fresh_queue_keeps_abort, identify_keeps_abort.
Qed.

Lemma download_cover_aborted_emits_nothing_witness :
  st_queue (snd (download_cover (site good_page [] [Byte.x01]) parse_ymd re_none no_sort
                   None None {[ "bokelai" := "0010" ]} 30 st_aborted)) = st_queue st_aborted.
Proof.
  apply download_cover_aborted_emits_nothing. reflexivity.
Defined.

(** A cover url already cached for the bokelai id short-cuts
    download_cover: it goes straight to the cover fetch, without running
    identify. *)
Theorem download_cover_cache_hit open_novisit parse_date re_search_meta identify_results_sort
    (title : option string) (authors : option (list string))
    (identifiers : gmap string string) (timeout : Z) (s : state)
    (bokelai_id url : string) :
  identifiers !! "bokelai" = Some bokelai_id -> st_cache s !! bokelai_id = Some url ->
  download_cover open_novisit parse_date re_search_meta identify_results_sort title authors identifiers timeout s =
  fetch_cover open_novisit url timeout s.
Proof.
  intros Hid Hc. unfold download_cover, bind at 1, get_cached_cover_url.
  rewrite Hid. unfold cached_identifier_to_cover_url. rewrite Hc. reflexivity.
Qed.

Lemma download_cover_cache_hit_witness :
  download_cover offline parse_ymd re_none no_sort None None {[ "bokelai" := "0010" ]} 30 st_cached =
  fetch_cover offline cover_ok 30 st_cached.
Proof.
  apply (download_cover_cache_hit offline parse_ymd re_none no_sort None None
           {[ "bokelai" := "0010" ]} 30 st_cached "0010" cover_ok); reflexivity.
Defined.

(** A detail page that parses to a document without a JSON-LD script
    element makes detail retrieval raise an [IndexError] after logging the
    url: nothing is emitted and the cache is untouched. *)
Theorem retrieve_no_ld_json_raises open_novisit parse_date re_search_meta (bokelai_id : string)
    (timeout : Z) (raw : response) (s : state) :
  open_novisit (BOKELAI_DETAIL_URL bokelai_id) timeout = inr raw ->
  r_root raw = true ->
  r_ld_scripts raw = [] ->
  retrieve_bokelai_detail open_novisit parse_date re_search_meta bokelai_id timeout s =
  (Raised IndexError,
   mk_state (app (st_log s) [LInfo [BOKELAI_DETAIL_URL bokelai_id]])
     (st_queue s) (st_cache s) (st_abort s)).
Proof.
  intros Ho Hr Hs. unfold retrieve_bokelai_detail.
  cbv [bind log_info push_log with_state html_root fst snd].
  rewrite Ho, Hr, Hs. reflexivity.
Qed.

Lemma retrieve_no_ld_json_raises_witness :
  retrieve_bokelai_detail (site (search_page []) [] []) parse_ymd re_none "0010" 30 st0 =
  (Raised IndexError, mk_state (app [] [LInfo [BOKELAI_DETAIL_URL "0010"]]) [] ∅ false).
Proof.
  apply (retrieve_no_ld_json_raises _ _ _ "0010" 30 (search_page [])); reflexivity.
Defined.

(** A detail page for which [etree.HTML] gives no document (an empty
    body) makes detail retrieval raise an [AttributeError] at the first
    XPath query, after logging the url: nothing is emitted and the cache is
    untouched. *)
Theorem retrieve_no_document_raises open_novisit parse_date re_search_meta (bokelai_id : string)
    (timeout : Z) (raw : response) (s : state) :
  open_novisit (BOKELAI_DETAIL_URL bokelai_id) timeout = inr raw ->
  r_root raw = false ->
  retrieve_bokelai_detail open_novisit parse_date re_search_meta bokelai_id timeout s =
  (Raised AttributeError,
   mk_state (app (st_log s) [LInfo [BOKELAI_DETAIL_URL bokelai_id]])
     (st_queue s) (st_cache s) (st_abort s)).
Proof.
  intros Ho Hr. unfold retrieve_bokelai_detail.
  cbv [bind log_info push_log with_state html_root fst snd].
  rewrite Ho, Hr. reflexivity.
Qed.

Lemma retrieve_no_document_raises_witness :
  retrieve_bokelai_detail (site empty_page [] []) parse_ymd re_none "0010" 30 st0 =
  (Raised AttributeError, mk_state (app [] [LInfo [BOKELAI_DETAIL_URL "0010"]]) [] ∅ false).
Proof.
  apply (retrieve_no_document_raises _ _ _ "0010" 30 empty_page); reflexivity.
Defined.

(** A search page for which [etree.HTML] gives no document makes identify
    raise the [AttributeError] of the parse: only the fetch is inside the
    [try], so the error leaves identify, with nothing emitted and nothing
    logged after the fetch. *)
Theorem identify_query_no_document_raises open_novisit parse_date re_search_meta
    (search_url : string) (timeout : Z) (raw : response) (s : state) :
  open_novisit search_url timeout = inr raw ->
  r_root raw = false ->
  identify_query open_novisit parse_date re_search_meta search_url timeout s =
  (Raised AttributeError, s).
Proof.
  intros Ho Hr. unfold identify_query. rewrite Ho. unfold bind at 1.
  by rewrite (parse_page_no_root raw s Hr).
Qed.

Lemma identify_query_no_document_raises_witness :
  identify_query (fun _ _ => inr empty_page) parse_ymd re_none (BOKELAI_QUERY_URL "978") 30 st0 =
  (Raised AttributeError, st0).
Proof.
  apply (identify_query_no_document_raises _ _ _ _ 30 empty_page); reflexivity.
Defined.

(** ** String lemmas *)

Lemma startswith_self (q t : string) : PyStr.startswith q (q ++ t) = true.
Proof. induction q as [|x q IH]; [reflexivity|]. simpl. by rewrite Ascii.eqb_refl. Qed.

Lemma startswith_app_l (q : string) :
  forall a b, String.length q <= String.length a ->
  PyStr.startswith q (a ++ b) = PyStr.startswith q a.
Proof.
  induction q as [|x q IH]; intros a b Hl; [reflexivity|].
  destruct a as [|y a]; simpl in Hl; [lia|].
  simpl. destruct (Ascii.eqb x y); [apply IH; lia | reflexivity].
Qed.

Lemma drop_app (q t : string) : PyStr.drop (String.length q) (q ++ t) = t.
Proof. induction q as [|x q IH]; [reflexivity | exact IH]. Qed.

Lemma contains_of_startswith (q s : string) :
  PyStr.startswith q s = true -> PyStr.contains q s = true.
Proof. intros H. destruct s; simpl; by rewrite H. Qed.

Lemma contains_mid (q x y : string) : PyStr.contains q (x ++ q ++ y) = true.
Proof.
  induction x as [|c x IH].
  - exact (contains_of_startswith _ _ (startswith_self q y)).
  - change (String c x ++ q ++ y) with (String c (x ++ q ++ y)).
    simpl. destruct (PyStr.startswith q _); [reflexivity | exact IH].
Qed.

Lemma contains_false_startswith (q s : string) :
  PyStr.contains q s = false -> PyStr.startswith q s = false.
Proof. destruct s; simpl; destruct (PyStr.startswith q _); congruence. Qed.

Lemma contains_false_tail (q : string) (c : Ascii.ascii) (s : string) :
  PyStr.contains q (String c s) = false -> PyStr.contains q s = false.
Proof. simpl. destruct (PyStr.startswith q _); congruence. Qed.

Lemma split_go_no_sep (sep : string) (fuel : nat) :
  forall s cur, PyStr.contains sep s = false -> PyStr.split_go sep fuel s cur = [cur ++ s].
Proof.
  induction fuel as [|fuel IH]; intros s cur H; [reflexivity|].
  simpl. rewrite (contains_false_startswith _ _ H).
  destruct s as [|c s].
  - by rewrite string_append_nil_r.
  - rewrite IH by exact (contains_false_tail _ _ _ H).
    by rewrite string_append_assoc.
Qed.

(** [s.split(sep)] is [[s]] when [sep] does not occur in [s]. *)
Lemma split_no_sep (sep s : string) : PyStr.contains sep s = false -> PyStr.split sep s = [s].
Proof. intros H. apply (split_go_no_sep sep _ s "" H). Qed.

Lemma contains_slash_run_noslash (u : string) : PyStr.contains "/" (Re.run_noslash u) = false.
Proof.
  induction u as [|c u IH]; [reflexivity|]. simpl.
  destruct (Ascii.eqb c "/") eqn:E; [reflexivity|].
  rewrite Ascii.eqb_sym in E. cbn [PyStr.contains PyStr.startswith]. rewrite E. exact IH.
Qed.

Lemma run_noslash_app (id rest : string) :
  PyStr.contains "/" id = false ->
  PyStr.startswith "/" rest = true \/ rest = "" ->
  Re.run_noslash (id ++ rest) = id.
Proof.
  intros Hid Hr. induction id as [|c id IH].
  - destruct Hr as [Hr | ->]; [|reflexivity].
    destruct rest as [|c rest]; [reflexivity|].
    cbn [PyStr.startswith] in Hr. change ("" ++ String c rest) with (String c rest).
    cbn [Re.run_noslash].
    rewrite Ascii.eqb_sym. destruct (Ascii.eqb "/" c); [reflexivity | discriminate].
  - pose proof (contains_false_startswith _ _ Hid) as Hc. cbn [PyStr.startswith] in Hc.
    change (String c id ++ rest) with (String c (id ++ rest)). cbn [Re.run_noslash].
    rewrite Ascii.eqb_sym. destruct (Ascii.eqb "/" c); [discriminate|].
    rewrite IH; [reflexivity | exact (contains_false_tail _ _ _ Hid)].
Qed.

Lemma item_search_noslash (u b : string) :
  Re.item_search u = Some b -> PyStr.contains "/" b = false.
Proof.
  induction u as [|c u IH]; intros H; cbn [Re.item_search] in H.
  - discriminate.
  - destruct (PyStr.startswith "item/" (String c u)).
    + injection H as <-. apply contains_slash_run_noslash.
    + exact (IH H).
Qed.

Lemma parse_hrefs_result (urls : list string) (s : state) :
  (Forall (fun u => is_Some (Re.item_search u)) urls ->
   exists ids, parse_hrefs urls s = (Ok ids, s) /\ length ids = length urls /\
     Forall (fun i => PyStr.contains "/" i = false) ids) /\
  (Exists (fun u => Re.item_search u = None) urls ->
   parse_hrefs urls s = (Raised AttributeError, s)).
Proof.
  induction urls as [|u urls [IH1 IH2]]; split.
  - intros _. exists []. auto.
  - intros H. inversion H.
  - intros H. inversion H as [|? ? [b Hb] Hrest]; subst.
    destruct (IH1 Hrest) as [ids [Hp [Hl Hf]]].
    exists (b :: ids). cbn [parse_hrefs]. unfold bind. rewrite Hb. cbn [ret].
    rewrite Hp. split; [reflexivity|]. split; [simpl; lia|].
    constructor; [exact (item_search_noslash _ _ Hb) | exact Hf].
  - intros H. cbn [parse_hrefs]. unfold bind.
    destruct (Re.item_search u) as [b|] eqn:Hb; [|reflexivity].
    inversion H as [? ? Hu | ? ? Hrest]; subst; [congruence|].
    cbn [ret]. by rewrite (IH2 Hrest).
Qed.

Lemma item_search_eq (s : string) :
  Re.item_search s =
  if PyStr.startswith "item/" s then Some (Re.run_noslash (PyStr.drop 5 s))
  else match s with String _ s' => Re.item_search s' | EmptyString => None end.
Proof. destruct s; reflexivity. Qed.

(** The item id scraped from a search-result link: [item/] followed by an
    id with no slash, the link ending there or going on with a slash, and
    no earlier [item/] in the link. *)
Theorem item_search_extracts (p id rest : string) :
  PyStr.contains "item/" (p ++ "item") = false ->
  PyStr.contains "/" id = false ->
  PyStr.startswith "/" rest = true \/ rest = "" ->
  Re.item_search (p ++ "item/" ++ id ++ rest) = Some id.
Proof.
  intros Hp Hid Hr. induction p as [|c p IH].
  - change ("" ++ "item/" ++ id ++ rest) with ("item/" ++ id ++ rest).
    rewrite item_search_eq, startswith_self.
    change 5%nat with (String.length "item/"). rewrite drop_app.
    by rewrite run_noslash_app.
  - change (String c p ++ "item/" ++ id ++ rest) with (String c (p ++ "item/" ++ id ++ rest)).
    cbn [Re.item_search].
    assert (Hs : PyStr.startswith "item/" (String c (p ++ "item/" ++ id ++ rest)) = false).
    { change (String c (p ++ "item/" ++ id ++ rest))
        with (String c p ++ "item/" ++ id ++ rest).
      replace (String c p ++ "item/" ++ id ++ rest)
        with ((String c p ++ "item") ++ ("/" ++ (id ++ rest)))
        by (rewrite string_append_assoc; reflexivity).
      rewrite startswith_app_l.
      - exact (contains_false_startswith _ _ Hp).
      - rewrite string_length_append. simpl. lia. }
    rewrite Hs. apply IH.
    exact (contains_false_tail _ _ _ Hp).
Qed.

Lemma item_search_extracts_witness :
  Re.item_search ("//www.books.com.tw/products/" ++ "item/" ++ "0010854" ++ "/page") = Some "0010854".
Proof.
  apply item_search_extracts.
  - vm_compute. reflexivity.
  - vm_compute. reflexivity.
  - left. reflexivity.
Defined.

(** A search-result page that parses to a document whose every link
    carries [item/] yields one id per link, none containing a slash, and
    leaves the state untouched. *)
Theorem parse_query_page_ids (raw : response) (s : state) :
  r_root raw = true ->
  Forall (fun u => is_Some (Re.item_search u)) (r_search_hrefs raw) ->
  exists ids, parse_bokelai_query_page raw s = (Ok ids, s) /\
    length ids = length (r_search_hrefs raw) /\
    Forall (fun i => PyStr.contains "/" i = false) ids.
Proof.
  intros Hr H. rewrite (parse_page_root raw s Hr).
  exact (proj1 (parse_hrefs_result _ s) H).
Qed.

Lemma parse_query_page_ids_witness :
  exists ids, parse_bokelai_query_page (search_page ["/item/0010/x"; "/item/0020"]) st0 = (Ok ids, st0) /\
    length ids = 2%nat /\ Forall (fun i => PyStr.contains "/" i = false) ids.
Proof.
  apply (parse_query_page_ids (search_page ["/item/0010/x"; "/item/0020"]) st0); [reflexivity|].
  repeat constructor; eexists; reflexivity.
Defined.

(** A search-result link without [item/] makes the parse raise (the
    [AttributeError] of [None.group()]), whatever the other links, with the
    state untouched. *)
Theorem parse_query_page_bad_link (raw : response) (s : state) :
  Exists (fun u => Re.item_search u = None) (r_search_hrefs raw) ->
  parse_bokelai_query_page raw s = (Raised AttributeError, s).
Proof.
  intros H. destruct (r_root raw) eqn:Hr.
  - rewrite (parse_page_root raw s Hr). exact (proj2 (parse_hrefs_result _ s) H).
  - exact (parse_page_no_root raw s Hr).
Qed.

Lemma parse_query_page_bad_link_witness :
  parse_bokelai_query_page (search_page ["/item/0010"; "/about"]) st0 = (Raised AttributeError, st0).
Proof.
  apply parse_query_page_bad_link. apply Exists_cons_tl, Exists_cons_hd. reflexivity.
Defined.

Lemma cover_match_at_shape (id t m : string) :
  Re.cover_match_at id t = Some m ->
  PyStr.startswith "https" m = true /\ PyStr.contains id m = true.
Proof.
  unfold Re.cover_match_at. intros E.
  destruct (PyStr.startswith "https" t); [|discriminate].
  destruct (Re.split_at_id _ _ _) as [[a rest]|]; [|discriminate].
  injection E as <-. split.
  - apply startswith_self.
  - exact (contains_mid id ("https" ++ a) (Re.run rest)).
Qed.

Lemma literal_cover_search_shape (id image m : string) :
  Re.cover_search id image = Some m ->
  PyStr.startswith "https" m = true /\ PyStr.contains id m = true.
Proof.
  induction image as [|c image IH]; intros H; cbn [Re.cover_search] in H;
  destruct (Re.cover_match_at id _) as [m'|] eqn:E.
  - injection H as <-. exact (cover_match_at_shape _ _ _ E).
  - discriminate.
  - injection H as <-. exact (cover_match_at_shape _ _ _ E).
  - exact (IH H).
Qed.

(** For an id without regex metacharacters, the cover url the search pulls
    out of the JSON-LD [image] field starts with [https] and contains the
    bokelai id. *)
Theorem cover_regex_search_shape (re_search_meta : string -> string -> string + option string)
    (id image m : string) :
  Re.meta_free id = true ->
  cover_regex_search re_search_meta id image = inr (Some m) ->
  PyStr.startswith "https" m = true /\ PyStr.contains id m = true.
Proof.
  intros Hf H. unfold cover_regex_search in H. rewrite Hf in H.
  injection H as H. exact (literal_cover_search_shape id image m H).
Qed.

Lemma cover_regex_search_shape_witness :
  exists m, cover_regex_search re_none "0010" image_ok = inr (Some m) /\
  PyStr.startswith "https" m = true /\ PyStr.contains "0010" m = true.
Proof.
  eexists. split; [vm_compute; reflexivity|].
  apply (cover_regex_search_shape re_none "0010" image_ok); [reflexivity|].
  vm_compute. reflexivity.
Defined.

(** When no classification text holds a full-width slash, the tag loop logs
    each text and returns the texts split on ["/"], flattened in order. *)
Theorem collect_tags_halfwidth (texts : list string) (l : list log_entry)
    (q : list item) (c : gmap string string) (a : bool) :
  Forall (fun t => PyStr.contains "／" t = false) texts ->
  collect_tags (map Some texts) [] (mk_state l q c a) =
  (Ok (flat_map (PyStr.split "/") texts),
   mk_state (l ++ map (fun t => LInfo [t]) texts) q c a).
Proof.
  intros H. rewrite collect_tags_texts. f_equal. f_equal.
  change (flat_map (PyStr.split "/") texts) with ([] ++ flat_map (PyStr.split "/") texts)%list.
  generalize (@nil string) as tags.
  induction H as [|t texts Ht _ IH]; intros tags; simpl.
  - by rewrite app_nil_r.
  - rewrite IH. unfold extend_tags. rewrite Ht.
    destruct (PyStr.contains "/" t) eqn:Hs.
    + by rewrite app_assoc.
    + rewrite (split_no_sep _ _ Hs). by rewrite app_assoc.
Qed.

Lemma collect_tags_halfwidth_witness :
  collect_tags (map Some tag_texts) [] st0 =
  (Ok ["Fiction"; "Drama"; "Poetry"],
   mk_state ([] ++ map (fun t => LInfo [t]) tag_texts) [] ∅ false).
Proof.
  refine (eq_trans (collect_tags_halfwidth tag_texts [] [] ∅ false _) _).
  - repeat constructor.
  - vm_compute. reflexivity.
Defined.
